(** * A shallow embedding of nphusl (src/nphusl/nphusl.py)

    NumPy float64 arithmetic is IEEE binary64 arithmetic, modelled with
    Rocq's primitive floats.  The C library functions NumPy calls ([sin],
    [cos], [atan2], [pow]) are not part of the repository; they are taken as
    a parameter [libm].  [np.sqrt] is the correctly rounded IEEE square root,
    i.e. [PrimFloat.sqrt]. *)

From Stdlib Require Import ZArith List Bool Lia Floats.
From Stdlib Require Uint63.
From Stdlib Require String.
Import String.StringSyntax.
Import ListNotations.

Set Warnings "-inexact-float".
Open Scope float_scope.

(** The C library entry points NumPy's ufuncs use. *)
Record libm := mk_libm {
  sin : float -> float;
  cos : float -> float;
  atan2 : float -> float -> float;   (* atan2(y, x) *)
  pow : float -> float -> float
}.

Definition pixel : Type := (float * float * float)%type.
Definition mat3 : Type := (pixel * pixel * pixel)%type.

(** The repository's [constants] module (not in src/). *)
Record consts := mk_consts {
  M : mat3;
  M_INV : mat3;
  REF_Y : float;
  REF_U : float;
  REF_V : float;
  KAPPA : float;
  EPSILON : float
}.

(** Modelled from the spec: the [constants] module (not in src/), holding
    "empirical constants from the reference HUSL algorithm" (spec, section 9);
    these are the reference HUSL values. *)
Definition husl_consts : consts := {|
  M := ((3.240969941904521, -1.537383177570093, -0.498610760293),
        (-0.96924363628087, 1.87596750150772, 0.041555057407175),
        (0.055630079696993, -0.20397695888897, 1.056971514242878));
  M_INV := ((0.41239079926595, 0.35758433938387, 0.18048078840183),
            (0.21263900587151, 0.71516867876775, 0.072192315360733),
            (0.019330818715591, 0.11919477979462, 0.95053215224966));
  REF_Y := 1.0;
  REF_U := 0.19783000664283;
  REF_V := 0.46831999493879;
  KAPPA := 903.2962962;
  EPSILON := 0.0088564516
|}.

(** Python's [math.pi] and NumPy's [degrees]/[radians]
    ([x * (180.0/NPY_PI)] and [x * (NPY_PI/180.0)]). *)
Definition PI : float := 3.141592653589793.
Definition degrees (x : float) : float := x * (180 / PI).
Definition radians (x : float) : float := x * (PI / 180).

(** [numpy.nan_to_num]: NaN to 0, infinities to the largest finite floats. *)
Definition MAX_FLOAT : float := 1.7976931348623157e308.
Definition nan_to_num (x : float) : float :=
  if is_nan x then 0
  else if is_infinity x then (if x <? 0 then - MAX_FLOAT else MAX_FLOAT)
  else x.

(** [x[np.isinf(x)] = 0] *)
Definition zero_if_inf (x : float) : float :=
  if is_infinity x then 0 else x.

(** [numpy.minimum] on float64: [(a <= b || isnan(a)) ? a : b]. *)
Definition np_minimum (a b : float) : float :=
  if (a <=? b) || is_nan a then a else b.

Definition L_MAX : float := 99.99.
Definition L_MIN : float := 0.01.
Definition _2pi : float := PI * 2.

Section Kernels.
Variable lm : libm.
Variable k : consts.

(** ** RGB -> HUSL, one pixel (row of the flat [(N, 3)] array) at a time.
    Every NumPy operation of these kernels acts element by element, and every
    reshape is to [(size // 3, 3)] and back, so each kernel is the map of
    its per-pixel function. *)

(** [_to_linear], one channel value. *)
Definition _to_linear_el (x : float) : float :=
  let a := 0.055 in
  if 0.04045 <? x then pow lm ((x + a) / (1 + a)) 2.4 else x / 12.92.

Definition map3 (f : float -> float) (p : pixel) : pixel :=
  let '(x, y, z) := p in (f x, f y, f z).

(** [np.sum(scalars[i] * rgb_nd, sum_axis)], one row. *)
Definition dot_row (s : pixel) (p : pixel) : float :=
  let '(s0, s1, s2) := s in let '(a, b, c) := p in
  s0 * a + s1 * b + s2 * c.

(** The three sums [x], [y], [z] of [_dot_product], one row. *)
Definition dot3 (m : mat3) (p : pixel) : pixel :=
  let '(r0, r1, r2) := m in (dot_row r0 p, dot_row r1 p, dot_row r2 p).

(** [_to_light], one value. *)
Definition _to_light_el (y : float) : float :=
  if EPSILON k <? y then pow lm (y / REF_Y k) (1 / 3) * 116 - 16
  else (y / REF_Y k) * KAPPA k.

(** [_xyz_to_luv], one row. *)
Definition _xyz_to_luv_px (p : pixel) : pixel :=
  let '(X, Y, Z) := p in
  let U_var := zero_if_inf ((4 * X) / (X + (15 * Y) + (3 * Z))) in
  let V_var := zero_if_inf ((9 * Y) / (X + (15 * Y) + (3 * Z))) in
  let L0 := _to_light_el Y in
  (* luv_flat[L == 0] = 0 *)
  let L := if L0 =? 0 then 0 else L0 in
  let U := L * 13 * (U_var - REF_U k) in
  let V := L * 13 * (V_var - REF_V k) in
  map3 nan_to_num (L, U, V).

(** [uv_nd[uv_nd == -0.0] = 0.0]: the write [_luv_to_lch] makes through the
    view [luv_nd[..., 1:2]], i.e. on the U channel of its argument. *)
Definition fix_neg_zero (u : float) : float := if u =? -0 then 0 else u.

Definition fix_neg_zero_px (p : pixel) : pixel :=
  let '(L, U, V) := p in (L, fix_neg_zero U, V).

(** Hue normalisation [H[H < 0.0] += 360.0] (and [H += 360] when 0-d). *)
Definition normalize_hue (H : float) : float := if H <? 0 then H + 360 else H.

(** [_luv_to_lch] on an array of two or more dimensions, one row, after the
    U channel has been fixed: [C = (U**2 + V**2)**0.5] is [np.sqrt] of
    [np.square(U) + np.square(V)] (NumPy's fast paths of [**] on arrays). *)
Definition _luv_to_lch_row (p : pixel) : pixel :=
  let '(L, U, V) := p in
  let C := PrimFloat.sqrt (U * U + V * V) in
  let H := degrees (atan2 lm V U) in
  (L, C, normalize_hue H).

(** [_luv_to_lch] on a one-dimensional [(3,)] array: [U] and [V] are 0-d
    arrays, [U**2 + V**2] is a NumPy scalar and [** 0.5] on a float64 scalar
    calls [pow]. *)
Definition _luv_to_lch_0d (p : pixel) : pixel :=
  let '(L, U, V) := p in
  let C := pow lm (U * U + V * V) 0.5 in
  let H := degrees (atan2 lm V U) in
  (L, C, normalize_hue H).

(** ** Chroma bounds *)

Definition col (m : mat3) (n : nat) : pixel :=
  let '((a0, a1, a2), (b0, b1, b2), (c0, c1, c2)) := m in
  match n with
  | 0%nat => (a0, b0, c0)
  | 1%nat => (a1, b1, c1)
  | _ => (a2, b2, c2)
  end.

Definition to_list3 (p : pixel) : list float := let '(a, b, c) := p in [a; b; c].

(** [TOP1_SCALAR], [TOP2_SCALAR], [BOTTOM_SCALAR]: the elementwise
    combinations of the columns [M1], [M2], [M3] of [M]. *)
Definition scalars (m : mat3) : list (float * float * float) :=
  let M1 := to_list3 (col m 0) in
  let M2 := to_list3 (col m 1) in
  let M3 := to_list3 (col m 2) in
  map (fun '(m1, m2, m3) =>
         (284517 * m1 - 94839 * m3,
          838422 * m3 + 769860 * m2 + 731718 * m1,
          632260 * m3 - 126452 * m2))
      (combine (combine M1 M2) M3).

Definition TOP2_L_SCALAR : float := 769860.
Definition BOTTOM_CONST : float := 126452.

(** The term [sub2] of [_bounds] for one lightness value. *)
Definition bounds_sub (l : float) : float :=
  let sub1 := pow lm (l + 16) 3 / 1560896 in
  if sub1 <? EPSILON k then l / KAPPA k else sub1.

(** The line yielded by [_bounds] for one scalar triple and one [t]. *)
Definition bound_line (l sub2 : float) (s : float * float * float) (t : bool)
  : float * float :=
  let '(t1, t2, b) := s in
  let top1 := sub2 * t1 in
  let top2 := l * sub2 * t2 in
  let top2 := if t then top2 - l * TOP2_L_SCALAR else top2 in
  let bottom := sub2 * b in
  let bottom := if t then bottom + BOTTOM_CONST else bottom in
  (top1 / bottom, top2 / bottom).

(** [_bounds], one lightness value: the lines in the generator's order. *)
Definition _bounds (l : float) : list (float * float) :=
  let sub2 := bounds_sub l in
  flat_map (fun s => [bound_line l sub2 s false; bound_line l sub2 s true])
           (scalars (M k)).

(** [_ray_length], one element. *)
Definition _ray_length (theta : float) (line : float * float) : float :=
  let '(m1, b1) := line in b1 / (sin lm theta - m1 * cos lm theta).

(** [lens[np.isnan(lens)] = np.inf; lens[lens < 0] = np.inf] *)
Definition exclude (len : float) : float :=
  let len := if is_nan len then infinity else len in
  if len <? 0 then infinity else len.

(** [_max_lh_chroma], one (lightness, hue) pair. *)
Definition _max_lh_chroma_el (L H : float) : float :=
  let hrad := (H / 360) * _2pi in
  fold_left (fun lengths line => np_minimum (exclude (_ray_length hrad line)) lengths)
            (_bounds L) infinity.

(** [_lch_to_husl], one row. *)
Definition _lch_to_husl_px (p : pixel) : pixel :=
  let '(L0, C, H0) := p in
  let light := L_MAX <? L0 in
  let dark := L0 <? L_MIN in
  if light then (H0, 0, 100)
  else if dark then (H0, 0, 0)
  else (H0, (C / _max_lh_chroma_el L0 H0) * 100, L0).

(** ** HUSL -> RGB *)

(** [_husl_to_lch], one row. *)
Definition _husl_to_lch_px (p : pixel) : pixel :=
  let '(H0, S0, L0) := p in
  let mx := _max_lh_chroma_el L0 H0 in
  let C := mx / 100 * S0 in
  if L_MAX <? L0 then (100, 0, H0)
  else if L0 <? L_MIN then (0, 0, H0)
  else (L0, C, H0).

(** [_lch_to_luv], one row. *)
Definition _lch_to_luv_px (p : pixel) : pixel :=
  let '(L, C, H) := p in
  let hrad := radians H in
  (L, cos lm hrad * C, sin lm hrad * C).

(** [_from_light], one value. *)
Definition _from_light_el (l : float) : float :=
  if 8 <? l then REF_Y k * pow lm ((l + 16) / 116) 3
  else REF_Y k * l / KAPPA k.

(** [_luv_to_xyz], one row. *)
Definition _luv_to_xyz_px (p : pixel) : pixel :=
  let '(L, U, V) := p in
  let Y_var := _from_light_el L in
  let L13 := 13 * L in
  let U_var := zero_if_inf (U / L13 + REF_U k) in
  let V_var := zero_if_inf (V / L13 + REF_V k) in
  let Y := Y_var * REF_Y k in
  let X := - (9 * Y * U_var) / ((U_var - 4) * V_var - U_var * V_var) in
  let Z := (9 * Y - (15 * V_var * Y) - (V_var * X)) / (3 * V_var) in
  let row := if L =? 0 then (0, 0, 0) else (X, Y, Z) in
  map3 nan_to_num row.

(** [_from_linear], one value. *)
Definition _from_linear_el (x : float) : float :=
  if x <=? 0.0031308 then 12.92 * x
  else 1.055 * pow lm x (1 / 2.4) - 0.055.

End Kernels.

(** ** Arrays: a shape and the row-major data *)

Record ndarray := mk_nd { shape : list nat; data : list float }.

Fixpoint rows3 (d : list float) : list pixel :=
  match d with
  | a :: b :: c :: t => (a, b, c) :: rows3 t
  | _ => []
  end.

Fixpoint unrows (ps : list pixel) : list float :=
  match ps with
  | [] => []
  | (a, b, c) :: t => a :: b :: c :: unrows t
  end.

(** An elementwise ufunc. *)
Definition elementwise (f : float -> float) (a : ndarray) : ndarray :=
  mk_nd (shape a) (map f (data a)).

(** A kernel that reshapes to [(size // 3, 3)], works row by row and
    reshapes the result back to the input's shape. *)
Definition pixelwise (f : pixel -> pixel) (a : ndarray) : ndarray :=
  mk_nd (shape a) (unrows (map f (rows3 (data a)))).

(** [np.atleast_3d] on a shape. *)
Definition atleast_3d (s : list nat) : list nat :=
  match s with
  | [] => [1; 1; 1]
  | [n] => [1; n; 1]
  | [m; n] => [m; n; 1]
  | _ => s
  end%nat.

(** [np.dstack] of three arrays of shape [s]: concatenation along axis 2. *)
Definition dstack_shape (s : list nat) : list nat :=
  match atleast_3d s with
  | a :: b :: c :: t => a :: b :: (3 * c)%nat :: t
  | s' => s'
  end.

(** [ndarray.squeeze()]: every axis of length 1 removed. *)
Definition squeeze (s : list nat) : list nat :=
  filter (fun d => negb (Nat.eqb d 1)) s.

(** [_dot_product(scalars, rgb_nd)]: the sums over the last axis have the
    shape of [rgb_nd] without its last axis; they are stacked with
    [np.dstack] and squeezed.  For inputs of rank at most 3 (those the
    pipeline passes) [dstack] interleaves the three sums position by
    position, which is the data below. *)
Definition _dot_product (m : mat3) (a : ndarray) : ndarray :=
  mk_nd (squeeze (dstack_shape (removelast (shape a))))
        (unrows (map (dot3 m) (rows3 (data a)))).

(** [_channel(data, 0)] of a [(..., 3)] array. *)
Definition first3 (p : pixel) : float := let '(a, _, _) := p in a.
Definition _channel0 (a : ndarray) : ndarray :=
  mk_nd (removelast (shape a)) (map first3 (rows3 (data a))).

Section Pipeline.
Variable lm : libm.
Variable k : consts.
(** Modelled from the spec: the decorator [transform.rgb_float_input] (not in
    src/), which brings RGB input to the 0.0-1.0 float working range
    ("the core normalizes internally to a 0.0-1.0 float working range");
    it is taken value by value. *)
Variable rgb_float_input : float -> float.

(** [_luv_to_lch(luv_nd)]: the pair of the argument array after the call
    (its U channel is written through the view [uv_nd]) and the result
    [lch_nd], a copy of the written argument filled with L, C, H.  [C.ndim]
    is 0 exactly when [luv_nd] is one-dimensional. *)
Definition _luv_to_lch (luv_nd : ndarray) : ndarray * ndarray :=
  let luv_after := pixelwise fix_neg_zero_px luv_nd in
  let row := if Nat.eqb (length (shape luv_nd)) 1
             then _luv_to_lch_0d lm else _luv_to_lch_row lm in
  (luv_after, pixelwise row luv_after).

Definition _to_linear (a : ndarray) : ndarray :=
  elementwise (_to_linear_el lm) (elementwise rgb_float_input a).

Definition _rgb_to_xyz (a : ndarray) : ndarray :=
  _dot_product (M_INV k) (_to_linear a).

Definition _xyz_to_luv (a : ndarray) : ndarray := pixelwise (_xyz_to_luv_px lm k) a.

Definition _rgb_to_lch (a : ndarray) : ndarray :=
  snd (_luv_to_lch (_xyz_to_luv (_rgb_to_xyz a))).

(** The LUV pixel the RGB-to-LUV stages give for one row. *)
Definition luv_of_rgb (p : pixel) : pixel :=
  _xyz_to_luv_px lm k (dot3 (M_INV k) (map3 (_to_linear_el lm)
    (map3 rgb_float_input (map3 rgb_float_input p)))).

Definition _lch_to_husl (a : ndarray) : ndarray := pixelwise (_lch_to_husl_px lm k) a.

(** [_rgb_to_husl], with its [rgb_float_input] decorator. *)
Definition _rgb_to_husl (a : ndarray) : ndarray :=
  _lch_to_husl (_rgb_to_lch (elementwise rgb_float_input a)).

(** [_rgb_to_hue], with its [rgb_float_input] decorator. *)
Definition _rgb_to_hue (a : ndarray) : ndarray :=
  _channel0 (_rgb_to_husl (elementwise rgb_float_input a)).

Definition _husl_to_lch (a : ndarray) : ndarray := pixelwise (_husl_to_lch_px lm k) a.

(** [_lch_to_luv].  On an array of rank 1 (or 0) the channels
    [_channel(luv_nd, n)] are 0-d views and [U[:] = ...] raises IndexError:
    [None]. *)
Definition _lch_to_luv (a : ndarray) : option ndarray :=
  if Nat.leb (length (shape a)) 1 then None
  else Some (pixelwise (_lch_to_luv_px lm) a).

Definition _luv_to_xyz (a : ndarray) : ndarray := pixelwise (_luv_to_xyz_px lm k) a.
Definition _from_linear (a : ndarray) : ndarray := elementwise (_from_linear_el lm) a.

Definition _xyz_to_rgb (a : ndarray) : ndarray := _from_linear (_dot_product (M k) a).
(** [_lch_to_rgb] and [_husl_to_rgb] raise ([None]) where [_lch_to_luv] does. *)
Definition _lch_to_rgb (a : ndarray) : option ndarray :=
  option_map (fun luv => _xyz_to_rgb (_luv_to_xyz luv)) (_lch_to_luv a).
Definition _husl_to_rgb (a : ndarray) : option ndarray := _lch_to_rgb (_husl_to_lch a).

End Pipeline.

(** ** The chunked executor *)

(** The canonical [(N, 3)] array of a list of rows. *)
Definition rows_nd (rows : list pixel) : ndarray :=
  mk_nd [length rows; 3%nat] (unrows rows).

Fixpoint chunks_fuel {A} (fuel n : nat) (xs : list A) : list (list A) :=
  match fuel with
  | O => []
  | S fuel' =>
      match xs with
      | [] => []
      | _ => firstn n xs :: chunks_fuel fuel' n (skipn n xs)
      end
  end.

(** Consecutive slices of at most [n] rows. *)
Definition chunks {A} (n : nat) (xs : list A) : list (list A) :=
  chunks_fuel (length xs) n xs.

(** Modelled from the spec: [transform.in_chunks] (not in src/).  "Given a
    canonical (N,3) array, a kernel function, an optional chunk size [...]
    partitions the N rows into consecutive slices of at most chunksize rows
    (default: process the whole array as one chunk), invokes the kernel once
    per slice, and writes each slice's result into the corresponding rows of
    the output [...] Fails with InvalidChunkSizeError if chunk size <= 0."
    The output buffer is returned as its row-major data: a slice's result
    (squeezed or not) fills the output's rows for that slice in order.  A
    kernel's exception ([None]) propagates. *)
Fixpoint all_some {A} (xs : list (option (list A))) : option (list A) :=
  match xs with
  | [] => Some []
  | x :: t =>
      match x, all_some t with
      | Some a, Some b => Some (a ++ b)
      | _, _ => None
      end
  end.

Definition in_chunks (kern : ndarray -> option ndarray) (rows : list pixel)
    (chunksize : option Z) : option (list float) :=
  match chunksize with
  | None => option_map data (kern (rows_nd rows))
  | Some c =>
      if (c <=? 0)%Z then None
      else all_some (map (fun ch => option_map data (kern (rows_nd ch))) (chunks (Z.to_nat c) rows))
  end.

(** ** Backend selection: the [optimized] decorator *)

Module Dispatch.

Inductive tier := NUMPY_T | NUMEXPR_T | CYTHON_T | SIMD_T.

(** An implementation: the module providing it and the function's name. *)
Record impl := mk_impl { impl_tier : tier; impl_name : String.string }.

(** The module state of nphusl.py that [optimized] reads and writes:
    which optional modules ([expr], [cyth], [simd]) were imported and
    define a given name ([getattr(module, name, None)] is not [None]), the
    three [_*_ENABLED] globals, the four registries [NUMPY], [NUMEXPR],
    [CYTHON], [SIMD], and the module-level name of each decorated kernel,
    which Python looks up when a caller calls the kernel. *)
Record state := mk_state {
  avail : tier -> String.string -> bool;
  NUMEXPR_ENABLED : bool;
  CYTHON_ENABLED : bool;
  SIMD_ENABLED : bool;
  registry : tier -> String.string -> option impl;
  bound : String.string -> option impl
}.

(** [getattr(mod, fn.__name__, None) if _X_ENABLED else None] *)
Definition get_impl (st : state) (enabled : bool) (t : tier) (name : String.string)
  : option impl :=
  if enabled && avail st t name then Some (mk_impl t name) else None.

(** Python's [a or b] on an optional function. *)
Definition py_or (a b : option impl) : option impl :=
  match a with Some _ => a | None => b end.

Definition reg_set (r : tier -> String.string -> option impl) (t : tier)
    (name : String.string) (f : impl) : tier -> String.string -> option impl :=
  fun t' n' =>
    if (match t, t' with
        | NUMPY_T, NUMPY_T | NUMEXPR_T, NUMEXPR_T
        | CYTHON_T, CYTHON_T | SIMD_T, SIMD_T => true
        | _, _ => false end) && String.eqb name n'
    then Some f else r t' n'.

Definition reg_set_opt r t name (f : option impl) :=
  match f with Some g => reg_set r t name g | None => r end.

(** [optimized(fn)]: the function it returns, and the state after the
    registrations. *)
Definition optimized (st : state) (name : String.string) : impl * state :=
  let fn := mk_impl NUMPY_T name in
  let expr_fn := get_impl st (NUMEXPR_ENABLED st) NUMEXPR_T name in
  let cython_fn := get_impl st (CYTHON_ENABLED st) CYTHON_T name in
  let simd_fn := get_impl st (SIMD_ENABLED st) SIMD_T name in
  let opt_fn := py_or simd_fn (py_or cython_fn expr_fn) in
  let r := reg_set (registry st) NUMPY_T name fn in
  let r := reg_set_opt r SIMD_T name simd_fn in
  let r := reg_set_opt r CYTHON_T name cython_fn in
  let r := reg_set_opt r NUMEXPR_T name expr_fn in
  let result_fn := match opt_fn with Some f => f | None => fn end in
  (result_fn, mk_state (avail st) (NUMEXPR_ENABLED st) (CYTHON_ENABLED st)
                       (SIMD_ENABLED st) r (bound st)).

(** [@optimized def name(...)]: the decorated definition binds the module
    name to what [optimized] returns. *)
Definition define (st : state) (name : String.string) : state :=
  let '(f, st') := optimized st name in
  mk_state (avail st') (NUMEXPR_ENABLED st') (CYTHON_ENABLED st') (SIMD_ENABLED st')
           (registry st')
           (fun n => if String.eqb name n then Some f else bound st' n).

(** Assigning one of the module globals [_NUMEXPR_ENABLED],
    [_CYTHON_ENABLED], [_SIMD_ENABLED]. *)
Definition set_enabled (st : state) (t : tier) (b : bool) : state :=
  match t with
  | NUMEXPR_T => mk_state (avail st) b (CYTHON_ENABLED st) (SIMD_ENABLED st)
                          (registry st) (bound st)
  | CYTHON_T => mk_state (avail st) (NUMEXPR_ENABLED st) b (SIMD_ENABLED st)
                         (registry st) (bound st)
  | SIMD_T => mk_state (avail st) (NUMEXPR_ENABLED st) (CYTHON_ENABLED st) b
                       (registry st) (bound st)
  | NUMPY_T => st
  end.

(** The implementation a call of the kernel [name] executes. *)
Definition call (st : state) (name : String.string) : option impl := bound st name.

(** The selection the spec describes, made from the state at the call:
    SIMD > compiled > expression-vectorized > reference, among the
    implementations that are available and whose tier is enabled. *)
Definition spec_dispatch (st : state) (name : String.string) : impl :=
  if SIMD_ENABLED st && avail st SIMD_T name then mk_impl SIMD_T name
  else if CYTHON_ENABLED st && avail st CYTHON_T name then mk_impl CYTHON_T name
  else if NUMEXPR_ENABLED st && avail st NUMEXPR_T name then mk_impl NUMEXPR_T name
  else mk_impl NUMPY_T name.

(** The [_*_ENABLED] flag of a tier; the reference tier has none. *)
Definition enabled (st : state) (t : tier) : bool :=
  match t with
  | NUMPY_T => true
  | NUMEXPR_T => NUMEXPR_ENABLED st
  | CYTHON_T => CYTHON_ENABLED st
  | SIMD_T => SIMD_ENABLED st
  end.

(** All three optional modules present with every kernel, all tiers enabled
    (the defaults), nothing registered or defined yet. *)
Definition all_available : state :=
  mk_state (fun _ _ => true) true true true (fun _ _ => None) (fun _ => None).

End Dispatch.

(** ** The claims' own readings of two computations *)

(** The ray length of a line as the spec describes it: [intercept / (sin(hue)
    - slope * cos(hue))], a negative or NaN length counting as infinite. *)
Definition spec_ray_length (lm : libm) (hrad : float) (line : float * float) : float :=
  let '(slope, intercept) := line in
  let len := intercept / (sin lm hrad - slope * cos lm hrad) in
  if is_nan len || (len <? 0) then infinity else len.

(** The term [sub] as the spec describes it: the cubic, replaced by
    [L / kappa] for [L] below the epsilon threshold. *)
Definition spec_sub (lm : libm) (k : consts) (L : float) : float :=
  if L <? EPSILON k then L / KAPPA k else pow lm (L + 16) 3 / 1560896.

Definition third3 (p : pixel) : float := let '(_, _, c) := p in c.
Definition second3 (p : pixel) : float := let '(_, b, _) := p in b.

(** A stand-in C library, used to instantiate the [libm]-parametric
    theorems at concrete inputs. *)
Definition toy_libm : libm :=
  mk_libm (fun x => x) (fun _ => 1) (fun y x => y / x) (fun x _ => x).

(** A small non-negative integer as a float. *)
Definition float_of_Z (z : Z) : float := of_uint63 (Uint63.of_Z z).

(** A C library whose [pow(x, 3.0)] is [x * x * x]. *)
Definition cube_libm : libm :=
  mk_libm (fun x => x) (fun _ => 1) (fun y x => y / x)
    (fun x y => if y =? 3 then x * x * x else x).

Definition finite3 (p : pixel) : Prop :=
  let '(a, b, c) := p in is_finite a = true /\ is_finite b = true /\ is_finite c = true.

(** The lightness a HUSL <-> LCH round trip gives back: [L] clamped to 100
    above [L_MAX] and to 0 below [L_MIN]. *)
Definition clamp_lightness (L : float) : float :=
  if L_MAX <? L then 100 else if L <? L_MIN then 0 else L.

(** Modelled from the spec: the round trip of C2, "for all valid RGB pixels,
    [to_rgb(to_husl(p))] reconstructs [p] within +-1 integer channel unit
    [...] pure black and pure white must map to themselves exactly".  One
    pixel goes through [to_husl] (the kernel [_rgb_to_husl] over the
    one-row array, with the decorator [rgb_float_input]), then through
    [to_rgb] (the kernel [_husl_to_rgb] over the resulting row, then the
    decorator [rgb_int_output], not in src/, here a parameter). *)
Definition round_trip_within_one (lm : libm) (k : consts)
    (rgb_float_input : float -> float) (rgb_int_output : float -> Z) : Prop :=
  forall r g b : Z, (0 <= r <= 255)%Z -> (0 <= g <= 255)%Z -> (0 <= b <= 255)%Z ->
  exists husl out,
    in_chunks (fun a => Some (_rgb_to_husl lm k rgb_float_input a))
      [(float_of_Z r, float_of_Z g, float_of_Z b)] None = Some husl /\
    in_chunks (_husl_to_rgb lm k) (rows3 husl) None = Some out /\
    Forall2 (fun o i => (Z.abs (rgb_int_output o - i) <= 1)%Z) out [r; g; b] /\
    ((r, g, b) = (0, 0, 0)%Z \/ (r, g, b) = (255, 255, 255)%Z ->
     map rgb_int_output out = [r; g; b]).

(** * Properties *)

(** ** The order of binary64 values *)

Module FloatOrder.

(** A lexicographic key of a non-NaN value: infinities, negative, zero and
    positive values in that order, then exponent and mantissa (reversed for
    negative values). *)
Definition key (x : spec_float) : Z * Z * Z :=
  match x with
  | S754_infinity true => (-2, 0, 0)
  | S754_infinity false => (2, 0, 0)
  | S754_zero _ => (0, 0, 0)
  | S754_finite true m e => (-1, - e, - Zpos m)
  | S754_finite false m e => (1, e, Zpos m)
  | S754_nan => (0, 0, 0)
  end%Z.

Definition lex (a b : Z * Z * Z) : comparison :=
  let '(a1, a2, a3) := a in
  let '(b1, b2, b3) := b in
  match Z.compare a1 b1 with
  | Eq => match Z.compare a2 b2 with Eq => Z.compare a3 b3 | c => c end
  | c => c
  end.

Definition not_nan (x : spec_float) : Prop := x <> S754_nan.

Lemma SFcompare_key x y :
  not_nan x -> not_nan y -> SFcompare x y = Some (lex (key x) (key y)).
Proof.
  unfold not_nan; intros Hx Hy.
  destruct x as [sx|sx| |sx mx ex]; try congruence;
  destruct y as [sy|sy| |sy my ey]; try congruence;
  try destruct sx; try destruct sy; simpl; try reflexivity.
  rewrite Z.compare_opp, (Z.compare_antisym ex ey).
  destruct (Z.compare ex ey); reflexivity.
Qed.

Lemma lex_refl a : lex a a = Eq.
Proof. destruct a as [[a1 a2] a3]; simpl; rewrite !Z.compare_refl; reflexivity. Qed.

Lemma lex_not_gt_trans a b c :
  lex a b <> Gt -> lex b c <> Gt -> lex a c <> Gt.
Proof.
  destruct a as [[a1 a2] a3], b as [[b1 b2] b3], c as [[c1 c2] c3]; simpl.
  destruct (Z.compare_spec a1 b1), (Z.compare_spec b1 c1), (Z.compare_spec a1 c1);
  try lia; try congruence;
  destruct (Z.compare_spec a2 b2), (Z.compare_spec b2 c2), (Z.compare_spec a2 c2);
  try lia; try congruence;
  destruct (Z.compare_spec a3 b3), (Z.compare_spec b3 c3), (Z.compare_spec a3 c3);
  try lia; try congruence.
Qed.

Lemma lex_total a b : lex a b = Gt -> lex b a = Lt.
Proof.
  destruct a as [[a1 a2] a3], b as [[b1 b2] b3]; simpl.
  destruct (Z.compare_spec a1 b1), (Z.compare_spec b1 a1); try lia; try congruence;
  destruct (Z.compare_spec a2 b2), (Z.compare_spec b2 a2); try lia; try congruence;
  destruct (Z.compare_spec a3 b3), (Z.compare_spec b3 a3); try lia; try congruence.
Qed.

Lemma is_nan_Prim2SF x : is_nan x = false -> not_nan (Prim2SF x).
Proof.
  unfold is_nan, not_nan; rewrite eqb_spec; intros H E.
  rewrite E in H. discriminate.
Qed.

Lemma leb_lex x y : is_nan x = false -> is_nan y = false ->
  (x <=? y) = match lex (key (Prim2SF x)) (key (Prim2SF y)) with Gt => false | _ => true end.
Proof.
  intros Hx Hy; rewrite leb_spec; unfold SFleb.
  rewrite (SFcompare_key _ _ (is_nan_Prim2SF _ Hx) (is_nan_Prim2SF _ Hy)).
  destruct (lex _ _); reflexivity.
Qed.

Lemma ltb_lex x y : is_nan x = false -> is_nan y = false ->
  (x <? y) = match lex (key (Prim2SF x)) (key (Prim2SF y)) with Lt => true | _ => false end.
Proof.
  intros Hx Hy; rewrite ltb_spec; unfold SFltb.
  rewrite (SFcompare_key _ _ (is_nan_Prim2SF _ Hx) (is_nan_Prim2SF _ Hy)).
  destruct (lex _ _); reflexivity.
Qed.

Lemma leb_refl x : is_nan x = false -> (x <=? x) = true.
Proof. intros H; rewrite (leb_lex x x H H), lex_refl; reflexivity. Qed.

Lemma leb_trans x y z : is_nan x = false -> is_nan y = false -> is_nan z = false ->
  (x <=? y) = true -> (y <=? z) = true -> (x <=? z) = true.
Proof.
  intros Hx Hy Hz; rewrite (leb_lex x y), (leb_lex y z), (leb_lex x z) by assumption.
  intros H1 H2.
  assert (N1 : lex (key (Prim2SF x)) (key (Prim2SF y)) <> Gt)
    by (destruct (lex _ _); congruence).
  assert (N2 : lex (key (Prim2SF y)) (key (Prim2SF z)) <> Gt)
    by (destruct (lex (key (Prim2SF y)) _); congruence).
  pose proof (lex_not_gt_trans _ _ _ N1 N2).
  destruct (lex (key (Prim2SF x)) (key (Prim2SF z))); congruence.
Qed.

Lemma leb_total x y : is_nan x = false -> is_nan y = false ->
  (x <=? y) = false -> (y <=? x) = true.
Proof.
  intros Hx Hy; rewrite (leb_lex x y), (leb_lex y x) by assumption.
  destruct (lex (key (Prim2SF x)) (key (Prim2SF y))) eqn:E; try discriminate.
  rewrite (lex_total _ _ E); reflexivity.
Qed.

Lemma ltb_leb x y : is_nan x = false -> is_nan y = false ->
  (x <? y) = true -> (x <=? y) = true.
Proof.
  intros Hx Hy; rewrite (leb_lex x y), (ltb_lex x y) by assumption.
  destruct (lex _ _); congruence.
Qed.

Lemma ltb_irrefl_leb x y : is_nan x = false -> is_nan y = false ->
  (x <? y) = true -> (y <=? x) = false.
Proof.
  intros Hx Hy; rewrite (leb_lex y x), (ltb_lex x y) by assumption.
  destruct (lex (key (Prim2SF x)) (key (Prim2SF y))) eqn:E; try discriminate.
  intros _.
  destruct (lex (key (Prim2SF y)) (key (Prim2SF x))) eqn:E'; try reflexivity.
  - exfalso. destruct (key (Prim2SF x)) as [[a1 a2] a3], (key (Prim2SF y)) as [[b1 b2] b3].
    simpl in E, E'.
    destruct (Z.compare_spec a1 b1), (Z.compare_spec b1 a1); try lia; try congruence;
    destruct (Z.compare_spec a2 b2), (Z.compare_spec b2 a2); try lia; try congruence;
    destruct (Z.compare_spec a3 b3), (Z.compare_spec b3 a3); try lia; try congruence.
  - exfalso. destruct (key (Prim2SF x)) as [[a1 a2] a3], (key (Prim2SF y)) as [[b1 b2] b3].
    simpl in E, E'.
    destruct (Z.compare_spec a1 b1), (Z.compare_spec b1 a1); try lia; try congruence;
    destruct (Z.compare_spec a2 b2), (Z.compare_spec b2 a2); try lia; try congruence;
    destruct (Z.compare_spec a3 b3), (Z.compare_spec b3 a3); try lia; try congruence.
Qed.

End FloatOrder.

Lemma is_nan_false_iff x : is_nan x = false <-> Prim2SF x <> S754_nan.
Proof.
  split; [apply FloatOrder.is_nan_Prim2SF|].
  intros H; unfold is_nan; rewrite eqb_spec; unfold SFeqb.
  rewrite (FloatOrder.SFcompare_key _ _ H H), FloatOrder.lex_refl; reflexivity.
Qed.

Lemma ltb_not_nan x y : (x <? y) = true -> is_nan x = false /\ is_nan y = false.
Proof.
  rewrite ltb_spec; intros H; split; apply is_nan_false_iff; intros E;
  rewrite E in H; [discriminate|].
  destruct (Prim2SF x); discriminate.
Qed.

Lemma below_L_MIN_not_light L : (L <? L_MIN) = true -> (L_MAX <? L) = false.
Proof.
  intros H. destruct (ltb_not_nan _ _ H) as [HL HM].
  assert (HX : is_nan L_MAX = false) by reflexivity.
  assert (Hle : (L <=? L_MAX) = true).
  { apply (FloatOrder.leb_trans L L_MIN L_MAX HL HM HX).
    - apply FloatOrder.ltb_leb; assumption.
    - reflexivity. }
  destruct (L_MAX <? L) eqn:E; [|reflexivity].
  rewrite (FloatOrder.ltb_irrefl_leb _ _ HX HL E) in Hle; discriminate.
Qed.

(** ** C10: [_dot_product] squeezes a one-row batch *)

(** C10: for a canonical one-row input of shape (1, 3), [_dot_product]
    returns an array of shape (3,): the stacked sums are squeezed of every
    singleton axis, so the batch axis is lost. *)
Theorem dot_product_one_row_shape (m : mat3) (d : list float) :
  shape (_dot_product m (mk_nd [1; 3]%nat d)) = [3]%nat.
Proof. reflexivity. Qed.

(** ** C4: lightness extremes *)

Example lch_to_husl_at_L_MAX :
  forall lm k C H, third3 (_lch_to_husl_px lm k (99.99, C, H)) = 99.99.
Proof. intros. reflexivity. Qed.

(** C4 (counterexample): at the lightness [99.99] itself, which the claim
    treats as white, [_lch_to_husl] keeps the lightness [99.99] (and computes
    the saturation), whatever the C library and the constants. *)
Lemma lightness_99_99_not_white :
  exists L, (L_MAX <=? L) = true /\
    forall lm k C H, third3 (_lch_to_husl_px lm k (L, C, H)) <> 100.
Proof.
  exists 99.99; split; [reflexivity|].
  intros lm k C H E. rewrite lch_to_husl_at_L_MAX in E.
  apply (f_equal (fun x => x =? 100)) in E. vm_compute in E. discriminate.
Qed.

(** C4 (as amended): a lightness strictly above [L_MAX = 99.99] is white
    (saturation 0, lightness 100 in [_lch_to_husl]; chroma 0, lightness 100
    in [_husl_to_lch]) and one strictly below [L_MIN = 0.01] is black
    (saturation or chroma 0, lightness 0), whatever the chroma.  Every other
    lightness, [99.99] and [0.01] themselves included, is kept, and the
    saturation (chroma) is computed from [_max_lh_chroma]. *)
Theorem lightness_extremes_strict lm k L C H :
  ((L_MAX <? L) = true ->
     _lch_to_husl_px lm k (L, C, H) = (H, 0, 100) /\
     _husl_to_lch_px lm k (H, C, L) = (100, 0, H)) /\
  ((L <? L_MIN) = true ->
     _lch_to_husl_px lm k (L, C, H) = (H, 0, 0) /\
     _husl_to_lch_px lm k (H, C, L) = (0, 0, H)) /\
  ((L_MAX <? L) = false -> (L <? L_MIN) = false ->
     _lch_to_husl_px lm k (L, C, H) = (H, (C / _max_lh_chroma_el lm k L H) * 100, L) /\
     _husl_to_lch_px lm k (H, C, L) = (L, _max_lh_chroma_el lm k L H / 100 * C, H)) /\
  (forall L', L' = L_MAX \/ L' = L_MIN ->
     _lch_to_husl_px lm k (L', C, H) = (H, (C / _max_lh_chroma_el lm k L' H) * 100, L') /\
     _husl_to_lch_px lm k (H, C, L') = (L', _max_lh_chroma_el lm k L' H / 100 * C, H)).
Proof.
  unfold _lch_to_husl_px, _husl_to_lch_px; split; [|split; [|split]].
  - intros E. rewrite E; split; reflexivity.
  - intros E. rewrite (below_L_MIN_not_light _ E), E; split; reflexivity.
  - intros E1 E2. rewrite E1, E2; split; reflexivity.
  - intros L' [-> | ->]; split; reflexivity.
Qed.

Lemma lightness_extremes_strict_witness :
  ((L_MAX <? 100) = true /\
   _lch_to_husl_px toy_libm husl_consts (100, 5, 30) = (30, 0, 100)) /\
  ((0 <? L_MIN) = true /\
   _lch_to_husl_px toy_libm husl_consts (0, 5, 30) = (30, 0, 0)) /\
  (((L_MAX <? 50) = false /\ (50 <? L_MIN) = false) /\
   _husl_to_lch_px toy_libm husl_consts (30, 5, 50)
   = (50, _max_lh_chroma_el toy_libm husl_consts 50 30 / 100 * 5, 30)) /\
  ((L_MAX = L_MAX \/ L_MAX = L_MIN) /\
   _lch_to_husl_px toy_libm husl_consts (L_MAX, 5, 30)
   = (30, (5 / _max_lh_chroma_el toy_libm husl_consts L_MAX 30) * 100, L_MAX)).
Proof.
  split; [|split; [|split]].
  - split; [reflexivity|].
    exact (proj1 (proj1 (lightness_extremes_strict toy_libm husl_consts 100 5 30) eq_refl)).
  - split; [reflexivity|].
    exact (proj1 (proj1 (proj2 (lightness_extremes_strict toy_libm husl_consts 0 5 30)) eq_refl)).
  - split; [split; reflexivity|].
    exact (proj2 (proj1 (proj2 (proj2 (lightness_extremes_strict toy_libm husl_consts 50 5 30)))
                    eq_refl eq_refl)).
  - split; [left; reflexivity|].
    exact (proj1 (proj2 (proj2 (proj2 (lightness_extremes_strict toy_libm husl_consts 0 5 30)))
                    L_MAX (or_introl eq_refl))).
Defined.

(** ** C3: hue normalisation *)

(** C3 (failure): for the LUV pixel (50, 1, -1e-300), [atan2] returns
    -1e-300, its value in degrees is about -5.7e-299 and adding 360 rounds
    to 360: [_luv_to_lch] produces the hue 360, outside [0, 360). *)
Theorem luv_to_lch_hue_360 lm :
  atan2 lm (-1e-300) 1 = -1e-300 ->
  data (snd (_luv_to_lch lm (mk_nd [1; 3]%nat [50; 1; -1e-300]))) = [50; 1; 360].
Proof.
  intros H. vm_compute in H. vm_compute. rewrite H. vm_compute. reflexivity.
Qed.

Lemma luv_to_lch_hue_360_witness :
  atan2 toy_libm (-1e-300) 1 = -1e-300 /\
  data (snd (_luv_to_lch toy_libm (mk_nd [1; 3]%nat [50; 1; -1e-300]))) = [50; 1; 360].
Proof.
  split; [vm_compute; reflexivity|].
  apply luv_to_lch_hue_360. vm_compute. reflexivity.
Defined.

(** ** C9: [_luv_to_lch] writes into its argument *)

(** C9 (failure): [_luv_to_lch] turns the -0.0 in the U channel of the
    array it is given into 0.0, in that array itself, before copying it:
    the argument is not the same after the call. *)
Theorem luv_to_lch_mutates_argument :
  exists a : ndarray, forall lm,
    data (fst (_luv_to_lch lm a)) = [50; 0; 10] /\ fst (_luv_to_lch lm a) <> a.
Proof.
  exists (mk_nd [1; 3]%nat [50; -0; 10]); intros lm; split.
  - vm_compute. reflexivity.
  - intros E. apply (f_equal (fun a => map (fun x => 1 / x) (data a))) in E.
    vm_compute in E. discriminate.
Qed.

(** ** C8: backend selection *)

Open Scope string_scope.

(** C8 (counterexample): with every backend available and enabled when the
    kernel [_rgb_to_husl] is defined, setting [_SIMD_ENABLED] to False
    afterwards leaves the SIMD implementation bound, while a call-time
    selection would pick the compiled one. *)
Lemma dispatch_fixed_at_definition :
  let st := Dispatch.set_enabled
              (Dispatch.define Dispatch.all_available "_rgb_to_husl")
              Dispatch.SIMD_T false in
  Dispatch.call st "_rgb_to_husl" = Some (Dispatch.mk_impl Dispatch.SIMD_T "_rgb_to_husl") /\
  Dispatch.spec_dispatch st "_rgb_to_husl" = Dispatch.mk_impl Dispatch.CYTHON_T "_rgb_to_husl".
Proof. vm_compute. split; reflexivity. Qed.

Lemma set_enabled_bound st t b : Dispatch.bound (Dispatch.set_enabled st t b) = Dispatch.bound st.
Proof. destruct t; reflexivity. Qed.

(** C8 (as amended): [optimized] selects when the kernel is defined: the
    name is bound to the first of SIMD > compiled > expression-vectorized
    implementations that is available and whose [_*_ENABLED] flag is set at
    that time, else the reference; later assignments of the flags do not
    change the implementation that calls of the kernel execute. *)
Theorem optimized_selects_at_definition (st : Dispatch.state) (name : String.string)
    (ops : list (Dispatch.tier * bool)) :
  Dispatch.call
    (fold_left (fun s '(t, b) => Dispatch.set_enabled s t b) ops (Dispatch.define st name))
    name
  = Some (Dispatch.spec_dispatch st name).
Proof.
  assert (Hdef : Dispatch.call (Dispatch.define st name) name = Some (Dispatch.spec_dispatch st name)).
  { unfold Dispatch.call, Dispatch.define, Dispatch.optimized, Dispatch.spec_dispatch,
      Dispatch.get_impl, Dispatch.py_or; simpl.
    rewrite String.eqb_refl.
    destruct (Dispatch.SIMD_ENABLED st && Dispatch.avail st Dispatch.SIMD_T name);
    destruct (Dispatch.CYTHON_ENABLED st && Dispatch.avail st Dispatch.CYTHON_T name);
    destruct (Dispatch.NUMEXPR_ENABLED st && Dispatch.avail st Dispatch.NUMEXPR_T name);
    reflexivity. }
  revert Hdef. generalize (Dispatch.define st name). induction ops as [|[t b] ops IH];
  intros s Hs; simpl; [exact Hs|].
  apply IH. unfold Dispatch.call in *. rewrite set_enabled_bound. exact Hs.
Qed.

Close Scope string_scope.

(** ** C5: the maximum chroma is the minimum ray length *)

Lemma exclude_not_nan l : is_nan (exclude l) = false.
Proof.
  unfold exclude. destruct (is_nan l) eqn:E.
  - reflexivity.
  - destruct (l <? 0); [reflexivity | exact E].
Qed.

Lemma spec_ray_length_exclude lm hrad line :
  spec_ray_length lm hrad line = exclude (_ray_length lm hrad line).
Proof.
  destruct line as [m1 b1]; unfold spec_ray_length, exclude, _ray_length.
  destruct (is_nan _); reflexivity.
Qed.

Lemma np_minimum_not_nan a b :
  is_nan a = false -> np_minimum a b = if a <=? b then a else b.
Proof. intros H; unfold np_minimum; rewrite H, orb_false_r; reflexivity. Qed.

(** The running minimum of [_max_lh_chroma] over values that are not NaN
    is below the start value and every value, and is one of them. *)
Lemma running_minimum xs acc :
  is_nan acc = false -> Forall (fun x => is_nan x = false) xs ->
  let r := fold_left (fun a x => np_minimum x a) xs acc in
  is_nan r = false /\ (r <=? acc) = true /\
  (forall x, In x xs -> (r <=? x) = true) /\ (r = acc \/ In r xs).
Proof.
  revert acc; induction xs as [|x xs IH]; intros acc Hacc Hxs; simpl.
  - repeat split; auto using FloatOrder.leb_refl; contradiction.
  - inversion Hxs as [|? ? Hx Hxs']; subst.
    rewrite (np_minimum_not_nan _ _ Hx).
    set (acc' := if x <=? acc then x else acc).
    assert (Hacc' : is_nan acc' = false) by (unfold acc'; destruct (x <=? acc); assumption).
    assert (Hle_acc : (acc' <=? acc) = true).
    { unfold acc'; destruct (x <=? acc) eqn:E; [exact E|apply FloatOrder.leb_refl; exact Hacc]. }
    assert (Hle_x : (acc' <=? x) = true).
    { unfold acc'; destruct (x <=? acc) eqn:E;
        [apply FloatOrder.leb_refl; exact Hx | apply FloatOrder.leb_total; assumption]. }
    destruct (IH acc' Hacc' Hxs') as (Hr & Hr_acc & Hr_all & Hr_in).
    set (r := fold_left _ xs acc') in *.
    repeat split.
    + exact Hr.
    + apply (FloatOrder.leb_trans _ acc' _); assumption.
    + intros y [<-|Hy].
      * apply (FloatOrder.leb_trans _ acc' _); assumption.
      * apply Hr_all; exact Hy.
    + destruct Hr_in as [Eq|In'].
      * unfold acc' in Eq; destruct (x <=? acc); [right; left; symmetry; exact Eq | left; exact Eq].
      * right; right; exact In'.
Qed.

Lemma fold_left_map_fn {A B C} (f : A -> B -> A) (g : C -> B) l a :
  fold_left (fun acc x => f acc (g x)) l a = fold_left f (map g l) a.
Proof. revert a; induction l; simpl; auto. Qed.

Lemma bounds_length lm k L : length (_bounds lm k L) = 6%nat.
Proof.
  unfold _bounds, scalars. destruct (M k) as [[[[a0 a1] a2] [[b0 b1] b2]] [[c0 c1] c2]].
  reflexivity.
Qed.

(** C5: the maximum chroma [_max_lh_chroma] for a (lightness, hue) pair is
    the minimum, over the six boundary lines of [_bounds], of the ray length
    [intercept / (sin(hue_rad) - slope * cos(hue_rad))] with negative or NaN
    lengths counted as infinite: it is at most each of these lengths and is
    one of them, or infinity. *)
Theorem max_lh_chroma_minimum lm k L H :
  let hrad := (H / 360) * _2pi in
  let lens := map (spec_ray_length lm hrad) (_bounds lm k L) in
  let mx := _max_lh_chroma_el lm k L H in
  length (_bounds lm k L) = 6%nat /\
  (forall len, In len lens -> (mx <=? len) = true) /\
  (mx = infinity \/ In mx lens).
Proof.
  intros hrad lens mx.
  assert (Hmx : mx = fold_left (fun a x => np_minimum x a) lens infinity).
  { unfold mx, lens, _max_lh_chroma_el.
    rewrite <- (fold_left_map_fn (fun a x => np_minimum x a)).
    fold hrad. generalize infinity. induction (_bounds lm k L) as [|line t IH];
    intros a; simpl; [reflexivity|].
    rewrite spec_ray_length_exclude. apply IH. }
  split; [apply bounds_length|].
  assert (Hall : Forall (fun x => is_nan x = false) lens).
  { unfold lens. apply Forall_forall. intros x Hx. apply in_map_iff in Hx.
    destruct Hx as (line & <- & _). rewrite spec_ray_length_exclude. apply exclude_not_nan. }
  destruct (running_minimum lens infinity eq_refl Hall) as (_ & _ & Hle & Hin).
  rewrite Hmx. split; [exact Hle|exact Hin].
Qed.

(** ** C6: the term [sub] of [_bounds] *)

(** C6 (counterexample): with the reference constants, at the lightness
    [L = 1], which is not below [EPSILON], the cubic [17^3 / 1560896] is below
    [EPSILON], so [_bounds] uses [L / KAPPA] where the claim keeps the cubic.
    Only [pow(17.0, 3.0) = 4913.0] is needed of the C library. *)
Lemma bounds_sub_threshold_on_cubic :
  exists L, (EPSILON husl_consts <=? L) = true /\
    forall lm, pow lm 17 3 = 4913 ->
      bounds_sub lm husl_consts L <> spec_sub lm husl_consts L.
Proof.
  exists 1; split; [reflexivity|].
  intros lm Hpow E.
  assert (H17 : pow lm (1 + 16) 3 = 4913) by (rewrite <- Hpow; reflexivity).
  unfold bounds_sub, spec_sub in E. rewrite H17 in E. apply (f_equal (fun x => x =? 1 / 903.2962962)) in E.
  vm_compute in E. discriminate.
Qed.

Lemma Z_0_100_cases n : (0 <= n <= 100)%Z -> In n (map Z.of_nat (seq 0 101)).
Proof.
  intros Hn. apply in_map_iff. exists (Z.to_nat n). split; [lia|].
  apply in_seq. lia.
Qed.

Ltac cases_0_100 Hn :=
  let Hin := fresh "Hin" in
  pose proof (Z_0_100_cases _ Hn) as Hin; simpl in Hin;
  repeat (destruct Hin as [<- | Hin]; [vm_compute; reflexivity|]); destruct Hin.

(** C6 (as amended): [_bounds] at lightness [L] builds its six lines from
    [sub = ((L+16)^3)/1560896], replaced by [L / kappa] exactly where this
    cubic is below [EPSILON].  With the reference constants and a C library
    whose [pow(x, 3.0)] is exact on the integer cubes [16^3 .. 116^3], for
    the integer lightness values [0 .. 100] the replacement happens exactly
    for [L = 0 .. 7]: for [L = 1 .. 7], which are not below [EPSILON], the
    term is [L / kappa], and from [L = 8] on it is the cubic. *)
Theorem bounds_sub_on_cubic lm :
  (forall k L,
     bounds_sub lm k L =
       (let cubic := pow lm (L + 16) 3 / 1560896 in
        if cubic <? EPSILON k then L / KAPPA k else cubic) /\
     length (_bounds lm k L) = 6%nat /\
     _bounds lm k L =
       flat_map (fun s => [bound_line L (bounds_sub lm k L) s false;
                           bound_line L (bounds_sub lm k L) s true]) (scalars (M k))) /\
  ((forall n, (16 <= n <= 116)%Z -> pow lm (float_of_Z n) 3 = float_of_Z (n ^ 3)) ->
   forall n, (0 <= n <= 100)%Z ->
     bounds_sub lm husl_consts (float_of_Z n) =
       if (n <=? 7)%Z then float_of_Z n / KAPPA husl_consts
       else float_of_Z ((n + 16) ^ 3) / 1560896).
Proof.
  split.
  - intros k L. split; [reflexivity|]. split; [apply bounds_length | reflexivity].
  - intros Hpow n Hn.
    assert (E : float_of_Z n + 16 = float_of_Z (n + 16)) by cases_0_100 Hn.
    unfold bounds_sub. rewrite E, (Hpow (n + 16)%Z) by lia.
    cases_0_100 Hn.
Qed.

Lemma cube_libm_exact :
  forall n, (16 <= n <= 116)%Z -> pow cube_libm (float_of_Z n) 3 = float_of_Z (n ^ 3).
Proof.
  intros n Hn.
  assert (Hin : In n (map Z.of_nat (seq 16 101))).
  { apply in_map_iff. exists (Z.to_nat n). split; [lia|]. apply in_seq. lia. }
  simpl in Hin.
  repeat (destruct Hin as [<- | Hin]; [vm_compute; reflexivity|]); destruct Hin.
Qed.

Lemma bounds_sub_on_cubic_witness :
  (forall n, (16 <= n <= 116)%Z -> pow cube_libm (float_of_Z n) 3 = float_of_Z (n ^ 3)) /\
  (0 <= 5 <= 100)%Z /\
  bounds_sub cube_libm husl_consts (float_of_Z 5) = float_of_Z 5 / KAPPA husl_consts.
Proof.
  split; [exact cube_libm_exact|]. split; [lia|].
  exact (proj2 (bounds_sub_on_cubic cube_libm) cube_libm_exact 5%Z ltac:(lia)).
Defined.

(** ** C7: division by zero in the XYZ <-> LUV kernels *)

(** C7 (counterexample): for the LUV pixel (5, 1, -30.44079967102135) the
    ratio [V / (13 L) + REF_V] is exactly 0, the denominator
    [(U_var - 4) * V_var - U_var * V_var] of X is -0.0, X is +infinity and
    [nan_to_num] turns it into the largest float, not 0. *)
Lemma luv_to_xyz_zero_denominator :
  (-30.44079967102135 / (13 * 5) + REF_V husl_consts = 0) /\
  forall lm, _luv_to_xyz_px lm husl_consts (5, 1, -30.44079967102135)
               = (MAX_FLOAT, 0.0055352822999873603, 0).
Proof. split; [vm_compute; reflexivity | intros lm; vm_compute; reflexivity]. Qed.

Lemma nan_to_num_finite x : is_finite (nan_to_num x) = true.
Proof.
  unfold nan_to_num. destruct (is_nan x) eqn:N; [reflexivity|].
  destruct (is_infinity x) eqn:I.
  - destruct (x <? 0); reflexivity.
  - unfold is_finite; rewrite N, I; reflexivity.
Qed.

Lemma map3_nan_to_num_finite p : finite3 (map3 nan_to_num p).
Proof. destruct p as [[a b] c]; simpl; auto using nan_to_num_finite. Qed.

(** C7 (as amended): [_xyz_to_luv] and [_luv_to_xyz] return only finite
    values (NaN becomes 0 and an infinity the largest float of its sign, by
    [nan_to_num]); the chromaticity ratios are replaced by 0 when infinite;
    [_luv_to_xyz] zeroes every row of lightness 0 and [_xyz_to_luv] every
    row whose computed lightness is 0 has lightness 0. *)
Theorem xyz_luv_results_finite lm k p :
  finite3 (_xyz_to_luv_px lm k p) /\
  finite3 (_luv_to_xyz_px lm k p) /\
  (forall x, is_infinity (zero_if_inf x) = false) /\
  ((first3 p =? 0) = true -> _luv_to_xyz_px lm k p = (0, 0, 0)) /\
  ((_to_light_el lm k (second3 p) =? 0) = true -> first3 (_xyz_to_luv_px lm k p) = 0).
Proof.
  destruct p as [[a b] c].
  split; [unfold _xyz_to_luv_px; apply map3_nan_to_num_finite|].
  split; [unfold _luv_to_xyz_px; apply map3_nan_to_num_finite|].
  split; [intros x; unfold zero_if_inf; destruct (is_infinity x) eqn:E; [reflexivity|exact E]|].
  split.
  - simpl; intros H. unfold _luv_to_xyz_px. rewrite H. reflexivity.
  - simpl; intros H. unfold _xyz_to_luv_px. rewrite H. reflexivity.
Qed.

(** ** Chunking *)

Lemma rows3_unrows ps : rows3 (unrows ps) = ps.
Proof. induction ps as [|[[a b] c] ps IH]; simpl; [reflexivity | rewrite IH; reflexivity]. Qed.

Lemma unrows_flat_map ps : unrows ps = flat_map to_list3 ps.
Proof. induction ps as [|[[a b] c] ps IH]; simpl; [reflexivity | rewrite IH; reflexivity]. Qed.

Lemma map_unrows f ps : map f (unrows ps) = unrows (map (map3 f) ps).
Proof. induction ps as [|[[a b] c] ps IH]; simpl; [reflexivity | rewrite IH; reflexivity]. Qed.

Lemma chunks_fuel_concat {A} n fuel (xs : list A) :
  (0 < n)%nat -> (length xs <= fuel)%nat -> concat (chunks_fuel fuel n xs) = xs.
Proof.
  intros Hn; revert xs; induction fuel as [|fuel IH]; intros xs Hlen; simpl.
  - destruct xs; [reflexivity | simpl in Hlen; lia].
  - destruct xs as [|x xs']; [reflexivity|].
    simpl concat. rewrite IH.
    + apply firstn_skipn.
    + rewrite length_skipn. cbn [length] in *. lia.
Qed.

(** Chunking does not change the result of a kernel that computes each
    row's values from that row alone. *)
Lemma in_chunks_rowwise (kern : ndarray -> option ndarray) (g : pixel -> list float) :
  (forall rows, option_map data (kern (rows_nd rows)) = Some (flat_map g rows)) ->
  forall rows c, (0 < c)%Z -> in_chunks kern rows (Some c) = in_chunks kern rows None.
Proof.
  intros Hk rows c Hc. unfold in_chunks.
  destruct (c <=? 0)%Z eqn:E; [apply Z.leb_le in E; lia|].
  rewrite Hk.
  transitivity (Some (flat_map g (concat (chunks (Z.to_nat c) rows)))).
  - unfold chunks. generalize (chunks_fuel (length rows) (Z.to_nat c) rows).
    intros l; induction l as [|ch l IH]; simpl; [reflexivity|].
    rewrite Hk, IH, flat_map_app. reflexivity.
  - unfold chunks. rewrite chunks_fuel_concat; [reflexivity|lia|lia].
Qed.

(** A kernel that never raises, as [in_chunks] takes it. *)
Lemma in_chunks_total (kern : ndarray -> ndarray) (g : pixel -> list float) :
  (forall rows, data (kern (rows_nd rows)) = flat_map g rows) ->
  forall rows, option_map data (Some (kern (rows_nd rows))) = Some (flat_map g rows).
Proof. intros Hk rows. cbn [option_map]. rewrite Hk. reflexivity. Qed.

Lemma dot_product_rows_shape m rows :
  Nat.eqb (length (shape (_dot_product m (rows_nd rows)))) 1 = Nat.eqb (length rows) 1.
Proof. destruct rows as [|p [|q rows]]; reflexivity. Qed.

Lemma pixelwise_data f a : data (pixelwise f a) = unrows (map f (rows3 (data a))).
Proof. reflexivity. Qed.

Lemma lch_to_husl_hue lm k p : first3 (_lch_to_husl_px lm k p) = third3 p.
Proof.
  destruct p as [[L C] H]; unfold _lch_to_husl_px.
  destruct (L_MAX <? L), (L <? L_MIN); reflexivity.
Qed.

Lemma luv_to_lch_0d_row_hue lm p :
  third3 (_luv_to_lch_0d lm p) = third3 (_luv_to_lch_row lm p).
Proof. destruct p as [[L U] V]; reflexivity. Qed.

Section ChunkInvariance.
Variable lm : libm.
Variable k : consts.
Variable rgb_float_input : float -> float.

Lemma rgb_to_lch_data rows :
  data (_rgb_to_lch lm k rgb_float_input (elementwise rgb_float_input (rows_nd rows)))
  = unrows (map (fun p => (if Nat.eqb (length rows) 1 then _luv_to_lch_0d lm
                          else _luv_to_lch_row lm) (fix_neg_zero_px (luv_of_rgb lm k rgb_float_input p))) rows).
Proof.
  unfold _rgb_to_lch, _luv_to_lch.
  replace (length (shape (_xyz_to_luv lm k (_rgb_to_xyz lm k rgb_float_input
            (elementwise rgb_float_input (rows_nd rows))))))
    with (length (shape (_dot_product (M_INV k) (rows_nd rows)))) by reflexivity.
  rewrite dot_product_rows_shape. simpl snd.
  rewrite !pixelwise_data. unfold _xyz_to_luv, _rgb_to_xyz, _dot_product, _to_linear,
    elementwise; simpl data.
  repeat (rewrite ?map_unrows, ?rows3_unrows); rewrite !map_map.
  reflexivity.
Qed.

Lemma elementwise_rows_nd (f : float -> float) rows :
  elementwise f (rows_nd rows) = rows_nd (map (map3 f) rows).
Proof. unfold elementwise, rows_nd; simpl. rewrite map_unrows, length_map. reflexivity. Qed.

Lemma flat_map_single {A B} (f : A -> B) l : flat_map (fun x => [f x]) l = map f l.
Proof. induction l; simpl; congruence. Qed.

(** [to_hue]'s kernel computes each row's hue from that row alone. *)
Lemma rgb_to_hue_rowwise rows :
  data (_rgb_to_hue lm k rgb_float_input (rows_nd rows))
  = flat_map (fun p => [third3 (_luv_to_lch_row lm
        (fix_neg_zero_px (luv_of_rgb lm k rgb_float_input (map3 rgb_float_input p))))]) rows.
Proof.
  unfold _rgb_to_hue, _channel0, _rgb_to_husl, _lch_to_husl. cbn [data].
  rewrite pixelwise_data, elementwise_rows_nd, rgb_to_lch_data, rows3_unrows,
    !map_map, rows3_unrows, map_map, flat_map_single.
  apply map_ext; intros p. rewrite lch_to_husl_hue.
  destruct (Nat.eqb _ 1); [apply luv_to_lch_0d_row_hue | reflexivity].
Qed.

(** [to_rgb]'s kernel computes each row from that row alone. *)
Lemma husl_to_rgb_rowwise rows :
  option_map data (_husl_to_rgb lm k (rows_nd rows))
  = Some (flat_map (fun p => to_list3 (map3 (_from_linear_el lm) (dot3 (M k)
        (_luv_to_xyz_px lm k (_lch_to_luv_px lm (_husl_to_lch_px lm k p)))))) rows).
Proof.
  unfold _husl_to_rgb, _lch_to_rgb, _lch_to_luv, _husl_to_lch, pixelwise, rows_nd.
  cbn [shape length Nat.leb option_map]. f_equal.
  unfold _xyz_to_rgb, _from_linear, _dot_product, elementwise, _luv_to_xyz, pixelwise.
  cbn [data].
  repeat (rewrite ?map_unrows, ?rows3_unrows); rewrite !map_map, unrows_flat_map.
  rewrite !flat_map_concat_map, map_map. reflexivity.
Qed.

(** [to_husl]'s kernel computes each row from that row alone when the C
    library's [pow(s, 0.5)] is [sqrt(s)]: a one-row slice is squeezed to a
    [(3,)] array by [_dot_product], and [_luv_to_lch] then takes its chroma
    with [pow] on a NumPy scalar instead of [np.sqrt]. *)
Lemma rgb_to_husl_rowwise :
  (forall s, pow lm s 0.5 = PrimFloat.sqrt s) ->
  forall rows,
  data (_rgb_to_husl lm k rgb_float_input (rows_nd rows))
  = flat_map (fun p => to_list3 (_lch_to_husl_px lm k (_luv_to_lch_row lm
        (fix_neg_zero_px (luv_of_rgb lm k rgb_float_input p))))) rows.
Proof.
  intros Hpow rows.
  unfold _rgb_to_husl, _lch_to_husl. rewrite pixelwise_data,
    rgb_to_lch_data, rows3_unrows, map_map, unrows_flat_map, flat_map_concat_map,
    flat_map_concat_map, map_map.
  f_equal. apply map_ext; intros p.
  destruct (Nat.eqb _ 1); [|reflexivity].
  unfold _luv_to_lch_0d, _luv_to_lch_row.
  destruct (fix_neg_zero_px (luv_of_rgb lm k rgb_float_input p)) as [[L U] V].
  rewrite Hpow. reflexivity.
Qed.

(** Chunked and whole-array conversion agree for [to_rgb] and [to_hue]. *)
Lemma husl_to_rgb_chunk_invariant rows c :
  (0 < c)%Z -> in_chunks (_husl_to_rgb lm k) rows (Some c) = in_chunks (_husl_to_rgb lm k) rows None.
Proof. intros Hc; eapply in_chunks_rowwise; [intros r; apply husl_to_rgb_rowwise | exact Hc]. Qed.

Lemma rgb_to_hue_chunk_invariant rows c :
  (0 < c)%Z -> in_chunks (fun a => Some (_rgb_to_hue lm k rgb_float_input a)) rows (Some c)
               = in_chunks (fun a => Some (_rgb_to_hue lm k rgb_float_input a)) rows None.
Proof.
  intros Hc; eapply in_chunks_rowwise;
    [apply (in_chunks_total _ _ rgb_to_hue_rowwise) | exact Hc].
Qed.

(** ... and for [to_husl] when [pow(s, 0.5)] is [sqrt(s)]. *)
Lemma rgb_to_husl_chunk_invariant rows c :
  (forall s, pow lm s 0.5 = PrimFloat.sqrt s) -> (0 < c)%Z ->
  in_chunks (fun a => Some (_rgb_to_husl lm k rgb_float_input a)) rows (Some c)
  = in_chunks (fun a => Some (_rgb_to_husl lm k rgb_float_input a)) rows None.
Proof.
  intros Hpow Hc; eapply in_chunks_rowwise;
    [apply (in_chunks_total _ _ (rgb_to_husl_rowwise Hpow)) | exact Hc].
Qed.

End ChunkInvariance.

(** ** C2: the RGB round trip *)

(** The black part of C2 holds for every C library, given only that the
    input decorator maps 0 to 0.0 and the output decorator maps 0.0 to 0:
    black has lightness 0, so it becomes HUSL [(H, 0, 0)] and the lightness
    0 makes [_luv_to_xyz] zero the row, whatever the hue. *)
Lemma round_trip_black lm rgb_float_input rgb_int_output :
  rgb_float_input (float_of_Z 0) = 0 -> rgb_float_input 0 = 0 -> rgb_int_output 0 = 0%Z ->
  exists husl out,
    in_chunks (fun a => Some (_rgb_to_husl lm husl_consts rgb_float_input a))
      [(float_of_Z 0, float_of_Z 0, float_of_Z 0)] None = Some husl /\
    in_chunks (_husl_to_rgb lm husl_consts) (rows3 husl) None = Some out /\
    map rgb_int_output out = [0; 0; 0]%Z.
Proof.
  intros Hin0 Hin Hout.
  eexists; eexists; split; [reflexivity|]. split; [reflexivity|].
  unfold in_chunks. cbn [option_map].
  unfold _rgb_to_husl, _lch_to_husl. rewrite pixelwise_data, rgb_to_lch_data.
  cbn [map Nat.eqb length rows3 unrows].
  unfold luv_of_rgb. cbn [map3]. rewrite Hin0, !Hin.
  vm_compute. rewrite Hout. reflexivity.
Qed.

(** * Further properties of the code *)

(** ** Shapes *)

Lemma dot_product_shape_def m a :
  shape (_dot_product m a) = squeeze (dstack_shape (removelast (shape a))).
Proof. reflexivity. Qed.

Lemma squeeze_dstack_removelast s :
  (1 <= length s <= 3)%nat -> last s 0%nat = 3%nat ->
  squeeze (dstack_shape (removelast s)) = squeeze s.
Proof.
  intros Hl Hlast.
  destruct s as [|a [|b [|c [|e s]]]]; cbn [length] in Hl; try lia;
    cbn [last] in Hlast; subst; reflexivity.
Qed.

(** [_dot_product] on an array of rank 1, 2 or 3 whose last axis has length
    3 returns the input's shape with every axis of length 1 removed. *)
Theorem dot_product_shape_squeezed m s d :
  (1 <= length s <= 3)%nat -> last s 0%nat = 3%nat ->
  shape (_dot_product m (mk_nd s d)) = squeeze s.
Proof. intros Hl Hlast. rewrite dot_product_shape_def. apply squeeze_dstack_removelast; assumption. Qed.

Lemma dot_product_shape_squeezed_witness :
  ((1 <= length [1; 5; 3]%nat <= 3)%nat /\ last [1; 5; 3]%nat 0%nat = 3%nat) /\
  shape (_dot_product (M husl_consts) (mk_nd [1; 5; 3]%nat [])) = [5; 3]%nat.
Proof.
  split; [split; [cbn; lia | reflexivity]|].
  apply (dot_product_shape_squeezed (M husl_consts) [1; 5; 3]%nat []); [cbn; lia | reflexivity].
Defined.

(** The full kernels [_rgb_to_husl] and [_husl_to_rgb] on an image of rank
    1, 2 or 3 with three channels return that shape with its axes of length
    1 removed, and [_rgb_to_hue] the same shape without the channel axis;
    [_husl_to_rgb] raises IndexError (in [_lch_to_luv]) on an image of
    rank 1 instead. *)
Theorem kernels_shape_squeezed lm k rgb_float_input a :
  (1 <= length (shape a) <= 3)%nat -> last (shape a) 0%nat = 3%nat ->
  shape (_rgb_to_husl lm k rgb_float_input a) = squeeze (shape a) /\
  option_map shape (_husl_to_rgb lm k a)
    = (if Nat.eqb (length (shape a)) 1 then None else Some (squeeze (shape a))) /\
  shape (_rgb_to_hue lm k rgb_float_input a) = removelast (squeeze (shape a)).
Proof.
  intros Hl Hlast.
  unfold _rgb_to_hue, _rgb_to_husl, _husl_to_rgb, _lch_to_husl, _rgb_to_lch, _luv_to_lch,
    _xyz_to_luv, _rgb_to_xyz, _to_linear, _lch_to_rgb, _xyz_to_rgb, _from_linear,
    _luv_to_xyz, _lch_to_luv, _husl_to_lch, _channel0, pixelwise, elementwise.
  cbn [shape snd]. rewrite !dot_product_shape_def. cbn [shape].
  rewrite squeeze_dstack_removelast by assumption.
  split; [reflexivity | split; [|reflexivity]].
  destruct (shape a) as [|n0 [|n1 s]]; cbn [length] in *; [lia | reflexivity |].
  cbn [Nat.leb Nat.eqb option_map shape].
  rewrite dot_product_shape_def. cbn [shape].
  rewrite squeeze_dstack_removelast by (cbn [length]; assumption || lia).
  reflexivity.
Qed.

Lemma kernels_shape_squeezed_witness :
  ((1 <= length [4; 1; 3]%nat <= 3)%nat /\ last [4; 1; 3]%nat 0%nat = 3%nat) /\
  option_map shape (_husl_to_rgb toy_libm husl_consts (mk_nd [4; 1; 3]%nat []))
    = Some [4; 3]%nat.
Proof.
  split; [split; [cbn; lia | reflexivity]|].
  exact (proj1 (proj2 (kernels_shape_squeezed toy_libm husl_consts (fun x => x)
                  (mk_nd [4; 1; 3]%nat []) ltac:(cbn; lia) eq_refl))).
Defined.

(** ** HUSL <-> LCH round trips *)

Ltac lightness_cases L :=
  destruct (L_MAX <? L) eqn:E1;
  [| destruct (L <? L_MIN) eqn:E2 ].

(** HUSL -> LCH -> HUSL gives back the hue exactly, and the lightness
    exactly when it is within [0.01, 99.99] (100 above, 0 below, where the
    saturation becomes 0). *)
Theorem husl_lch_husl_hue_lightness lm k H S L :
  let p := _lch_to_husl_px lm k (_husl_to_lch_px lm k (H, S, L)) in
  first3 p = H /\ third3 p = clamp_lightness L /\
  ((L_MAX <? L) || (L <? L_MIN) = true -> second3 p = 0).
Proof.
  unfold _husl_to_lch_px, clamp_lightness. lightness_cases L.
  - cbv zeta. unfold _lch_to_husl_px.
    replace (L_MAX <? 100) with true by reflexivity. repeat split.
  - cbv zeta. unfold _lch_to_husl_px.
    replace (L_MAX <? 0) with false by reflexivity.
    replace (0 <? L_MIN) with true by reflexivity. repeat split.
  - cbv zeta. unfold _lch_to_husl_px. rewrite E1, E2. repeat split.
    intros E; discriminate E.
Qed.

(** LCH -> HUSL -> LCH gives back the hue exactly, and the lightness
    exactly when it is within [0.01, 99.99] (100 above, 0 below, where the
    chroma becomes 0). *)
Theorem lch_husl_lch_hue_lightness lm k L C H :
  let p := _husl_to_lch_px lm k (_lch_to_husl_px lm k (L, C, H)) in
  first3 p = clamp_lightness L /\ third3 p = H /\
  ((L_MAX <? L) || (L <? L_MIN) = true -> second3 p = 0).
Proof.
  unfold _lch_to_husl_px, clamp_lightness. lightness_cases L; cbv zeta.
  - unfold _husl_to_lch_px.
    replace (L_MAX <? 100) with true by reflexivity. repeat split.
  - unfold _husl_to_lch_px.
    replace (L_MAX <? 0) with false by reflexivity.
    replace (0 <? L_MIN) with true by reflexivity. repeat split.
  - unfold _husl_to_lch_px. rewrite E1, E2. repeat split.
    intros E; discriminate E.
Qed.

Lemma husl_lch_husl_hue_lightness_witness :
  (L_MAX <? 100) || (100 <? L_MIN) = true /\
  second3 (_lch_to_husl_px toy_libm husl_consts (_husl_to_lch_px toy_libm husl_consts (30, 50, 100))) = 0.
Proof.
  split; [reflexivity|].
  exact (proj2 (proj2 (husl_lch_husl_hue_lightness toy_libm husl_consts 30 50 100)) eq_refl).
Defined.

Lemma lch_husl_lch_hue_lightness_witness :
  (L_MAX <? 0.001) || (0.001 <? L_MIN) = true /\
  second3 (_husl_to_lch_px toy_libm husl_consts (_lch_to_husl_px toy_libm husl_consts (0.001, 40, 30))) = 0.
Proof.
  split; [reflexivity|].
  exact (proj2 (proj2 (lch_husl_lch_hue_lightness toy_libm husl_consts 0.001 40 30)) eq_refl).
Defined.

(** ** Signs of the chroma *)

Lemma SFsqrt_not_negative x :
  match SpecFloat.SFsqrt prec emax x with
  | S754_finite true _ _ | S754_infinity true => False
  | _ => True
  end.
Proof.
  destruct x as [[]|[]| |[] mx ex]; cbn; trivial.
  destruct (SpecFloat.SFsqrt_core_binary prec emax (Zpos mx) ex) as [[mz ez] lz].
  unfold SpecFloat.binary_round_aux.
  destruct (SpecFloat.shr_fexp _ _ _ _ _) as [mrs e'].
  destruct (SpecFloat.shr_fexp _ _ _ _ _) as [mrs'' e''].
  destruct (SpecFloat.shr_m mrs''); trivial.
  destruct (e'' <=? _)%Z; trivial.
Qed.

(** [np.sqrt] never returns a value below 0. *)
Lemma sqrt_not_below_zero x : (PrimFloat.sqrt x <? 0) = false.
Proof.
  rewrite ltb_spec, sqrt_spec. unfold SF64sqrt.
  pose proof (SFsqrt_not_negative (Prim2SF x)) as H.
  change (Prim2SF 0) with (S754_zero false).
  destruct (SpecFloat.SFsqrt prec emax (Prim2SF x)) as [[]|[]| |[] m e];
    try contradiction; reflexivity.
Qed.

Lemma exclude_not_below_zero l : (exclude l <? 0) = false.
Proof.
  unfold exclude. destruct (is_nan l).
  - reflexivity.
  - destruct (l <? 0) eqn:E; [reflexivity | exact E].
Qed.

Lemma exclude_kept l : is_nan l = false -> (l <? 0) = false -> exclude l = l.
Proof. unfold exclude. intros -> ->. reflexivity. Qed.

Lemma exclude_removed l : exclude l = infinity \/ (is_nan l = false /\ (l <? 0) = false /\ exclude l = l).
Proof.
  unfold exclude. destruct (is_nan l) eqn:En; [left; reflexivity|].
  destruct (l <? 0) eqn:El; [left; reflexivity|right; auto].
Qed.

(** [_max_lh_chroma] never returns NaN nor a negative value.  A ray length
    is kept when it is neither NaN nor negative; the result is at most every
    kept ray length, and it is one of them, or infinity when none is kept. *)
Theorem max_lh_chroma_not_nan_not_negative lm k L H :
  let hrad := (H / 360) * _2pi in
  let mx := _max_lh_chroma_el lm k L H in
  is_nan mx = false /\ (mx <? 0) = false /\
  (forall line, In line (_bounds lm k L) ->
     is_nan (_ray_length lm hrad line) = false -> (_ray_length lm hrad line <? 0) = false ->
     (mx <=? _ray_length lm hrad line) = true) /\
  (mx = infinity \/
   exists line, In line (_bounds lm k L) /\
     is_nan (_ray_length lm hrad line) = false /\ (_ray_length lm hrad line <? 0) = false /\
     mx = _ray_length lm hrad line).
Proof.
  intros hrad mx. unfold mx, _max_lh_chroma_el. cbv zeta. fold hrad.
  set (lens := map (fun line => exclude (_ray_length lm hrad line)) (_bounds lm k L)).
  replace (fold_left (fun lengths line => np_minimum (exclude (_ray_length lm hrad line)) lengths)
             (_bounds lm k L) infinity)
    with (fold_left (fun a x => np_minimum x a) lens infinity)
    by (symmetry; apply (fold_left_map_fn (fun a x => np_minimum x a)
                           (fun line => exclude (_ray_length lm hrad line)))).
  assert (Hall : Forall (fun x => is_nan x = false) lens).
  { unfold lens. apply Forall_forall. intros x Hx. apply in_map_iff in Hx.
    destruct Hx as (line & <- & _). apply exclude_not_nan. }
  destruct (running_minimum lens infinity eq_refl Hall) as (Hn & _ & Hle & Hin).
  split; [exact Hn|]. split; [|split].
  - unfold lens in *.
    destruct Hin as [Heq | Hin]; [rewrite Heq; reflexivity|].
    apply in_map_iff in Hin. destruct Hin as (line & <- & _).
    apply exclude_not_below_zero.
  - intros line Hl Hnan Hneg. rewrite <- (exclude_kept _ Hnan Hneg).
    apply Hle. unfold lens. apply in_map_iff. exists line. auto.
  - unfold lens in *.
    destruct Hin as [Heq | Hin]; [left; exact Heq|].
    apply in_map_iff in Hin. destruct Hin as (line & Heq & Hl).
    destruct (exclude_removed (_ray_length lm hrad line)) as [Hinf | (Hnan & Hneg & Hk)].
    + left. rewrite <- Heq. exact Hinf.
    + right. exists line. rewrite <- Heq, Hk. auto.
Qed.

(** [_luv_to_lch] keeps every pixel's lightness, and on an array of two or
    more dimensions (where the chroma is [np.sqrt] of [U**2 + V**2]) no
    chroma is negative. *)
Theorem luv_to_lch_lightness_chroma lm a :
  map first3 (rows3 (data (snd (_luv_to_lch lm a)))) = map first3 (rows3 (data a)) /\
  (length (shape a) <> 1%nat ->
   Forall (fun r => (second3 r <? 0) = false) (rows3 (data (snd (_luv_to_lch lm a))))).
Proof.
  unfold _luv_to_lch. cbn [snd]. rewrite !pixelwise_data, !rows3_unrows, !map_map.
  split.
  - apply map_ext. intros [[L U] V].
    destruct (Nat.eqb _ 1); reflexivity.
  - intros Hne. apply Nat.eqb_neq in Hne. rewrite Hne.
    apply Forall_forall. intros r Hr. apply in_map_iff in Hr.
    destruct Hr as ([[L U] V] & <- & _). apply sqrt_not_below_zero.
Qed.

Lemma luv_to_lch_lightness_chroma_witness :
  length (shape (mk_nd [2; 3]%nat [50; 1; 2; 60; -3; 4])) <> 1%nat /\
  Forall (fun r => (second3 r <? 0) = false)
    (rows3 (data (snd (_luv_to_lch toy_libm (mk_nd [2; 3]%nat [50; 1; 2; 60; -3; 4]))))).
Proof.
  split; [discriminate|].
  apply (proj2 (luv_to_lch_lightness_chroma toy_libm (mk_nd [2; 3]%nat [50; 1; 2; 60; -3; 4]))).
  discriminate.
Defined.

(** ** Batching *)

Lemma rows_nd_app_data (kern : ndarray -> ndarray) (g : pixel -> list float) (P : list pixel -> Prop)
    (r1 r2 : list pixel) :
  (forall rows, P rows -> data (kern (rows_nd rows)) = flat_map g rows) ->
  P r1 -> P r2 -> P (r1 ++ r2) ->
  data (kern (rows_nd (r1 ++ r2))) = data (kern (rows_nd r1)) ++ data (kern (rows_nd r2)).
Proof. intros Hk H1 H2 H12. rewrite !Hk by assumption. apply flat_map_app. Qed.

(** [_husl_to_rgb] raises no error on [(N, 3)] batches, and on two batches
    of pixels stacked together it gives the two batches' results stacked
    together. *)
Theorem husl_to_rgb_batches lm k r1 r2 :
  exists d1 d2,
    option_map data (_husl_to_rgb lm k (rows_nd r1)) = Some d1 /\
    option_map data (_husl_to_rgb lm k (rows_nd r2)) = Some d2 /\
    option_map data (_husl_to_rgb lm k (rows_nd (r1 ++ r2))) = Some (d1 ++ d2).
Proof.
  eexists; eexists. rewrite !husl_to_rgb_rowwise, flat_map_app.
  split; [reflexivity | split; reflexivity].
Qed.

(** [_rgb_to_hue] on two batches of pixels stacked together gives the two
    batches' hues stacked together. *)
Theorem rgb_to_hue_batches lm k rgb_float_input r1 r2 :
  data (_rgb_to_hue lm k rgb_float_input (rows_nd (r1 ++ r2)))
  = data (_rgb_to_hue lm k rgb_float_input (rows_nd r1))
    ++ data (_rgb_to_hue lm k rgb_float_input (rows_nd r2)).
Proof.
  eapply (rows_nd_app_data _ _ (fun _ => True)); [intros rows _; apply rgb_to_hue_rowwise | trivial ..].
Qed.

Lemma rgb_to_husl_rows_ne1 lm k rgb_float_input rows :
  length rows <> 1%nat ->
  data (_rgb_to_husl lm k rgb_float_input (rows_nd rows))
  = flat_map (fun p => to_list3 (_lch_to_husl_px lm k (_luv_to_lch_row lm
        (fix_neg_zero_px (luv_of_rgb lm k rgb_float_input p))))) rows.
Proof.
  intros Hne. apply Nat.eqb_neq in Hne.
  unfold _rgb_to_husl, _lch_to_husl. rewrite pixelwise_data,
    rgb_to_lch_data, rows3_unrows, map_map, unrows_flat_map, flat_map_concat_map,
    flat_map_concat_map, map_map, Hne.
  reflexivity.
Qed.

(** [_rgb_to_husl] on two batches of pixels stacked together, neither of
    exactly one pixel, gives the two batches' results stacked together.  (A
    one-pixel batch is squeezed to a [(3,)] array by [_dot_product], and its
    chroma is then computed with [pow] instead of [np.sqrt].) *)
Theorem rgb_to_husl_batches lm k rgb_float_input r1 r2 :
  length r1 <> 1%nat -> length r2 <> 1%nat ->
  data (_rgb_to_husl lm k rgb_float_input (rows_nd (r1 ++ r2)))
  = data (_rgb_to_husl lm k rgb_float_input (rows_nd r1))
    ++ data (_rgb_to_husl lm k rgb_float_input (rows_nd r2)).
Proof.
  intros H1 H2.
  eapply (rows_nd_app_data _ _ (fun rows => length rows <> 1%nat)).
  - intros rows Hr; apply rgb_to_husl_rows_ne1; exact Hr.
  - exact H1.
  - exact H2.
  - rewrite length_app. lia.
Qed.

Lemma rgb_to_husl_batches_witness :
  (length [(0.2, 0.4, 0.6); (1, 0, 0)] <> 1%nat /\ length [(0, 0, 0); (1, 1, 1)] <> 1%nat) /\
  data (_rgb_to_husl toy_libm husl_consts (fun x => x)
          (rows_nd ([(0.2, 0.4, 0.6); (1, 0, 0)] ++ [(0, 0, 0); (1, 1, 1)])))
  = data (_rgb_to_husl toy_libm husl_consts (fun x => x) (rows_nd [(0.2, 0.4, 0.6); (1, 0, 0)]))
    ++ data (_rgb_to_husl toy_libm husl_consts (fun x => x) (rows_nd [(0, 0, 0); (1, 1, 1)])).
Proof.
  split; [split; discriminate|].
  apply rgb_to_husl_batches; discriminate.
Defined.

(** ** Registration by [optimized] *)

Open Scope string_scope.

Ltac dispatch_flags st name :=
  destruct (Dispatch.SIMD_ENABLED st && Dispatch.avail st Dispatch.SIMD_T name) eqn:ES;
  destruct (Dispatch.CYTHON_ENABLED st && Dispatch.avail st Dispatch.CYTHON_T name) eqn:EC;
  destruct (Dispatch.NUMEXPR_ENABLED st && Dispatch.avail st Dispatch.NUMEXPR_T name) eqn:EN.

(** Decorating the kernel [name] registers the reference implementation in
    [NUMPY], and each optional implementation in its own registry exactly
    when its module defines [name] and its tier is enabled (the registry is
    left as it was otherwise); the entries and bindings of every other name
    are left unchanged. *)
Theorem optimized_registrations st name :
  let st' := Dispatch.define st name in
  Dispatch.registry st' Dispatch.NUMPY_T name = Some (Dispatch.mk_impl Dispatch.NUMPY_T name) /\
  (forall t, t <> Dispatch.NUMPY_T ->
     Dispatch.registry st' t name
     = if Dispatch.enabled st t && Dispatch.avail st t name
       then Some (Dispatch.mk_impl t name) else Dispatch.registry st t name) /\
  (forall t n, name <> n ->
     Dispatch.registry st' t n = Dispatch.registry st t n /\ Dispatch.call st' n = Dispatch.call st n).
Proof.
  cbv zeta. unfold Dispatch.define, Dispatch.optimized, Dispatch.call; cbn [Dispatch.registry Dispatch.bound].
  unfold Dispatch.get_impl, Dispatch.reg_set_opt.
  split; [|split].
  - dispatch_flags st name; unfold Dispatch.reg_set; cbn; rewrite String.eqb_refl; reflexivity.
  - intros t Ht. destruct t; [congruence| | |]; cbn [Dispatch.enabled];
      dispatch_flags st name; unfold Dispatch.reg_set; cbn; rewrite ?String.eqb_refl;
      try reflexivity; try (rewrite ES in *); try (rewrite EC in *); try (rewrite EN in *);
      reflexivity.
  - intros t n Hn. apply String.eqb_neq in Hn.
    split; [|rewrite Hn; reflexivity].
    dispatch_flags st name; unfold Dispatch.reg_set; destruct t; cbn; rewrite ?Hn; reflexivity.
Qed.

Lemma optimized_registrations_witness :
  (Dispatch.SIMD_T <> Dispatch.NUMPY_T /\ "a" <> "b") /\
  Dispatch.registry (Dispatch.define Dispatch.all_available "a") Dispatch.SIMD_T "a"
    = Some (Dispatch.mk_impl Dispatch.SIMD_T "a") /\
  Dispatch.registry (Dispatch.define Dispatch.all_available "a") Dispatch.SIMD_T "b" = None.
Proof.
  split; [split; discriminate|]. split.
  - rewrite (proj1 (proj2 (optimized_registrations Dispatch.all_available "a"))
               Dispatch.SIMD_T ltac:(discriminate)).
    reflexivity.
  - rewrite (proj1 (proj2 (proj2 (optimized_registrations Dispatch.all_available "a"))
               Dispatch.SIMD_T "b" ltac:(discriminate))).
    reflexivity.
Defined.

(** The implementation [optimized] binds to the kernel [name] is one of
    those it registered under [name]: the reference one, or an optional one
    whose module defines [name] and whose tier was enabled. *)
Theorem optimized_binds_registered st name :
  exists f,
    Dispatch.call (Dispatch.define st name) name = Some f /\
    Dispatch.impl_name f = name /\
    Dispatch.registry (Dispatch.define st name) (Dispatch.impl_tier f) name = Some f /\
    (Dispatch.impl_tier f = Dispatch.NUMPY_T \/
     Dispatch.enabled st (Dispatch.impl_tier f) && Dispatch.avail st (Dispatch.impl_tier f) name = true).
Proof.
  unfold Dispatch.define, Dispatch.optimized, Dispatch.call; cbn [Dispatch.registry Dispatch.bound].
  unfold Dispatch.get_impl, Dispatch.reg_set_opt, Dispatch.py_or.
  rewrite String.eqb_refl.
  dispatch_flags st name; eexists; (split; [reflexivity|]); cbn;
    unfold Dispatch.reg_set; cbn; rewrite ?String.eqb_refl;
    (split; [reflexivity|]); (split; [rewrite ?ES, ?EC, ?EN; reflexivity|]);
    first [left; reflexivity | right; assumption].
Qed.

Close Scope string_scope.

(** ** Black in [_xyz_to_luv] *)

(** [np.nan_to_num(0 * y)] is a zero for every [y]: [0 * y] is a signed
    zero, or NaN when [y] is infinite or NaN. *)
Lemma nan_to_num_zero_mul y : (nan_to_num (0 * y) =? 0) = true.
Proof.
  assert (H : Prim2SF (0 * y) = S754_nan \/ exists s, Prim2SF (0 * y) = S754_zero s).
  { rewrite mul_spec. change (Prim2SF 0) with (S754_zero false). unfold SF64mul.
    destruct (Prim2SF y) as [s|s| |s m e]; cbn; eauto. }
  rewrite <- (SF2Prim_Prim2SF (0 * y)).
  destruct H as [-> | [[|] ->]]; reflexivity.
Qed.

(** [_xyz_to_luv] turns every pixel whose lightness [_to_light(Y)] is 0
    into the LUV pixel (0, 0, 0), its U and V being zeros whatever the
    chromaticity ratios. *)
Theorem xyz_to_luv_zero_lightness lm k p :
  (_to_light_el lm k (second3 p) =? 0) = true ->
  let q := _xyz_to_luv_px lm k p in
  (first3 q =? 0) = true /\ (second3 q =? 0) = true /\ (third3 q =? 0) = true.
Proof.
  destruct p as [[X Y] Z]. cbn [second3]. intros H. cbv zeta.
  unfold _xyz_to_luv_px. rewrite H. cbn [map3 first3 second3 third3].
  replace (0 * 13) with 0 by reflexivity.
  split; [reflexivity | split; apply nan_to_num_zero_mul].
Qed.

Lemma xyz_to_luv_zero_lightness_witness :
  (_to_light_el toy_libm husl_consts (second3 (0, 0, 0)) =? 0) = true /\
  let q := _xyz_to_luv_px toy_libm husl_consts (0, 0, 0) in
  (first3 q =? 0) = true /\ (second3 q =? 0) = true /\ (third3 q =? 0) = true.
Proof.
  split; [vm_compute; reflexivity|].
  apply xyz_to_luv_zero_lightness. vm_compute. reflexivity.
Defined.
